(** * core-js-101, [src/05-objects-tasks.js]: the rectangle factory and the
      CSS selector builder.

    The JavaScript objects are embedded shallowly.  A [SelectorCreator]
    instance is a record of its fields; a method body is a computation in a
    small state-and-exception monad [M] over the state of [this]; object
    identity and aliasing are modelled by a store of instances indexed by
    references, on which the facade [cssSelectorBuilder] operates. *)

From Stdlib Require Import ZArith Floats.
From stdpp Require Import gmap strings list.

Open Scope Z_scope.

(** ** JavaScript values used by the file *)

(** An exception object: [new Error(message)] has the name "Error". *)
Record Error := { name : string; message : string }.

(** How the evaluation of a call ends: with a value, or with a thrown
    exception. *)
Inductive completion (A : Type) : Type :=
| Normal (a : A)
| Throw (e : Error).
Arguments Normal {A} a.
Arguments Throw {A} e.

(** Truthiness of a string in a condition: only the empty string is falsy. *)
Definition truthy (s : string) : bool :=
  match s with
  | EmptyString => false
  | String _ _ => true
  end.

(** [Array.prototype.join] on an array of strings. *)
Definition join (sep : string) (l : list string) : string := String.concat sep l.
Arguments join : simpl never.

(** ** Rectangle *)

Module Rectangle.

(** The object literal [{ width, height, getArea() {...} }]; numbers are
    IEEE 754 doubles. *)
Record t := { width : float; height : float }.

Definition set_width (w : float) (this : t) : t :=
  {| width := w; height := height this |}.
Definition set_height (h : float) (this : t) : t :=
  {| width := width this; height := h |}.

Definition getArea (this : t) : float := (width this * height this)%float.

End Rectangle.

Definition Rectangle (width height : float) : Rectangle.t :=
  {| Rectangle.width := width; Rectangle.height := height |}.

(** ** State and exceptions *)

(** A computation over a mutable state [S] that returns or throws. *)
Definition M (S A : Type) : Type := S -> completion A * S.

Definition ret {S A} (a : A) : M S A := fun s => (Normal a, s).

Definition bind {S A B} (m : M S A) (k : A -> M S B) : M S B :=
  fun s =>
    match m s with
    | (Normal a, s') => k a s'
    | (Throw e, s') => (Throw e, s')
    end.

Definition throw {S A} (e : Error) : M S A := fun s => (Throw e, s).

(** Read a field of the state; overwrite a field through its setter. *)
Definition read {S A} (field : S -> A) : M S A := fun s => (Normal (field s), s).
Definition write {S A} (setter : A -> S -> S) (a : A) : M S unit :=
  fun s => (Normal tt, setter a s).

Declare Scope js_scope.
Delimit Scope js_scope with js.
Notation "x <- m ;; k" := (bind m (fun x => k))
  (at level 20, m at level 99, k at level 200, only parsing) : js_scope.
Notation "m ;; k" := (bind m (fun _ => k))
  (at level 100, k at level 200, only parsing, right associativity) : js_scope.
Open Scope js_scope.

(** [if (c) m;] with no else branch. *)
Definition when_ {S} (c : bool) (m : M S unit) : M S unit :=
  if c then m else ret tt.

(** ** The two throw helpers *)

Definition DuplicateError : Error :=
  {| name := "Error";
     message := "Element, id and pseudo-element should not occur more then one time inside the selector" |}.

Definition OrderError : Error :=
  {| name := "Error";
     message := "Selector parts should be arranged in the following order: element, id, class, attribute, pseudo-class, pseudo-element" |}.

Definition error1 {S A} : M S A := throw DuplicateError.
Definition error2 {S A} : M S A := throw OrderError.

(** ** class SelectorCreator *)

Module SelectorCreator.

Record t := {
  idData : string;
  elementData : string;
  classData : list string;
  attrData : list string;
  pseudoClassData : list string;
  pseudoElementData : list string;
  combinator : string;
  selector : string;
  line : Z;
  availableLine : list string;
}.

Definition set_idData (v : string) (o : t) : t :=
  {| idData := v; elementData := elementData o; classData := classData o;
     attrData := attrData o; pseudoClassData := pseudoClassData o;
     pseudoElementData := pseudoElementData o; combinator := combinator o;
     selector := selector o; line := line o; availableLine := availableLine o |}.
Definition set_elementData (v : string) (o : t) : t :=
  {| idData := idData o; elementData := v; classData := classData o;
     attrData := attrData o; pseudoClassData := pseudoClassData o;
     pseudoElementData := pseudoElementData o; combinator := combinator o;
     selector := selector o; line := line o; availableLine := availableLine o |}.
Definition set_classData (v : list string) (o : t) : t :=
  {| idData := idData o; elementData := elementData o; classData := v;
     attrData := attrData o; pseudoClassData := pseudoClassData o;
     pseudoElementData := pseudoElementData o; combinator := combinator o;
     selector := selector o; line := line o; availableLine := availableLine o |}.
Definition set_attrData (v : list string) (o : t) : t :=
  {| idData := idData o; elementData := elementData o; classData := classData o;
     attrData := v; pseudoClassData := pseudoClassData o;
     pseudoElementData := pseudoElementData o; combinator := combinator o;
     selector := selector o; line := line o; availableLine := availableLine o |}.
Definition set_pseudoClassData (v : list string) (o : t) : t :=
  {| idData := idData o; elementData := elementData o; classData := classData o;
     attrData := attrData o; pseudoClassData := v;
     pseudoElementData := pseudoElementData o; combinator := combinator o;
     selector := selector o; line := line o; availableLine := availableLine o |}.
Definition set_pseudoElementData (v : list string) (o : t) : t :=
  {| idData := idData o; elementData := elementData o; classData := classData o;
     attrData := attrData o; pseudoClassData := pseudoClassData o;
     pseudoElementData := v; combinator := combinator o;
     selector := selector o; line := line o; availableLine := availableLine o |}.
Definition set_combinator (v : string) (o : t) : t :=
  {| idData := idData o; elementData := elementData o; classData := classData o;
     attrData := attrData o; pseudoClassData := pseudoClassData o;
     pseudoElementData := pseudoElementData o; combinator := v;
     selector := selector o; line := line o; availableLine := availableLine o |}.
Definition set_selector (v : string) (o : t) : t :=
  {| idData := idData o; elementData := elementData o; classData := classData o;
     attrData := attrData o; pseudoClassData := pseudoClassData o;
     pseudoElementData := pseudoElementData o; combinator := combinator o;
     selector := v; line := line o; availableLine := availableLine o |}.
Definition set_line (v : Z) (o : t) : t :=
  {| idData := idData o; elementData := elementData o; classData := classData o;
     attrData := attrData o; pseudoClassData := pseudoClassData o;
     pseudoElementData := pseudoElementData o; combinator := combinator o;
     selector := selector o; line := v; availableLine := availableLine o |}.

(** [this.xs.push(x)]. *)
Definition push (field : t -> list string) (setter : list string -> t -> t)
    (x : string) : M t unit :=
  xs <- read field ;; write setter (xs ++ [x]).

(** The state of [this] after [constructor()]. *)
Definition constructor : t :=
  {| idData := ""; elementData := ""; classData := []; attrData := [];
     pseudoClassData := []; pseudoElementData := [];
     combinator := ""; selector := ""; line := 0;
     availableLine := ["elementData"; "idData"; "classData"; "attrData";
                       "pseudoClassData"; "pseudoElementData"] |}.

(** Each method runs on the state of [this]; the [return this] that ends
    the fragment methods is the reference the call was made on, which the
    store-level [invoke_this] hands back. *)

Definition id (value : string) : M t unit :=
  l <- read line ;;
  when_ (2 <? l) error2 ;;
  d <- read idData ;;
  (if truthy d then error1 else write set_idData ("#" +:+ value)) ;;
  write set_line 2.

Definition element (value : string) : M t unit :=
  l <- read line ;;
  when_ (1 <? l) error2 ;;
  d <- read elementData ;;
  (if truthy d then error1 else write set_elementData value) ;;
  write set_line 1.

Definition class (value : string) : M t unit :=
  l <- read line ;;
  when_ (3 <? l) error2 ;;
  push classData set_classData ("." +:+ value) ;;
  write set_line 3.

Definition attr (value : string) : M t unit :=
  l <- read line ;;
  when_ (4 <? l) error2 ;;
  push attrData set_attrData ("[" +:+ value +:+ "]") ;;
  write set_line 4.

Definition pseudoClass (value : string) : M t unit :=
  l <- read line ;;
  when_ (5 <? l) error2 ;;
  push pseudoClassData set_pseudoClassData (":" +:+ value) ;;
  write set_line 5.

Definition pseudoElement (value : string) : M t unit :=
  l <- read line ;;
  when_ (6 <? l) error2 ;;
  d <- read pseudoElementData ;;
  (if negb (length d =? 0)%nat then error1
   else push pseudoElementData set_pseudoElementData ("::" +:+ value)) ;;
  write set_line 6.

Definition setCombine (combinator selector : string) : M t unit :=
  write set_combinator combinator ;;
  write set_selector selector.

Definition stringify : M t string :=
  c <- read combinator ;;
  let link := c in
  e <- read elementData ;;
  i <- read idData ;;
  cl <- read classData ;;
  let part1 := e +:+ i +:+ join "" cl in
  a <- read attrData ;;
  pc <- read pseudoClassData ;;
  let part2 := join "" a +:+ join "" pc in
  pe <- read pseudoElementData ;;
  let part3 := join "" pe +:+ link in
  ret (part1 +:+ part2 +:+ part3).

End SelectorCreator.

(** ** Chained fragment calls *)

(** A fragment method call, as data: [b.id('x').class('c')] is the chain
    [[Id "x"; Class "c"]] run on [b]. *)
Inductive fragment : Type :=
| Element (value : string)
| Id (value : string)
| Class (value : string)
| Attr (value : string)
| PseudoClass (value : string)
| PseudoElement (value : string).

Definition call (f : fragment) : M SelectorCreator.t unit :=
  match f with
  | Element v => SelectorCreator.element v
  | Id v => SelectorCreator.id v
  | Class v => SelectorCreator.class v
  | Attr v => SelectorCreator.attr v
  | PseudoClass v => SelectorCreator.pseudoClass v
  | PseudoElement v => SelectorCreator.pseudoElement v
  end.

Fixpoint chain (fs : list fragment) : M SelectorCreator.t unit :=
  match fs with
  | [] => ret tt
  | f :: fs' => call f ;; chain fs'
  end.

(** The constant each method compares [this.line] with and then assigns to
    it. *)
Definition rank (f : fragment) : Z :=
  match f with
  | Element _ => 1
  | Id _ => 2
  | Class _ => 3
  | Attr _ => 4
  | PseudoClass _ => 5
  | PseudoElement _ => 6
  end.

(** ** References and the store of instances *)

Definition ref : Type := positive.
Abbreviation store := (gmap positive SelectorCreator.t).

(** A reference outside the store designates no instance; a method call on
    it throws, as a call on [undefined] does. *)
Definition TypeError : Error :=
  {| name := "TypeError"; message := "Cannot read properties of undefined" |}.

(** The method call [this.m(...)]: the body runs on the instance [this]
    refers to, and what it did to the fields is visible through every
    reference to that instance. *)
Definition invoke {A} (this : ref) (m : M SelectorCreator.t A) : M store A :=
  fun σ =>
    match σ !! this with
    | Some o => let (r, o') := m o in (r, <[this := o']> σ)
    | None => (Throw TypeError, σ)
    end.

(** A method whose last statement is [return this]. *)
Definition invoke_this (this : ref) (m : M SelectorCreator.t unit) : M store ref :=
  invoke this m ;; ret this.

(** [new SelectorCreator()]. *)
Definition new_SelectorCreator : M store ref :=
  fun σ =>
    let this := fresh (dom σ) in
    (Normal this, <[this := SelectorCreator.constructor]> σ).

(** ** The facade *)

Module cssSelectorBuilder.

Definition element (value : string) : M store ref :=
  this <- new_SelectorCreator ;; invoke_this this (SelectorCreator.element value).

Definition id (value : string) : M store ref :=
  this <- new_SelectorCreator ;; invoke_this this (SelectorCreator.id value).

Definition class (value : string) : M store ref :=
  this <- new_SelectorCreator ;; invoke_this this (SelectorCreator.class value).

Definition attr (value : string) : M store ref :=
  this <- new_SelectorCreator ;; invoke_this this (SelectorCreator.attr value).

Definition pseudoClass (value : string) : M store ref :=
  this <- new_SelectorCreator ;; invoke_this this (SelectorCreator.pseudoClass value).

Definition pseudoElement (value : string) : M store ref :=
  this <- new_SelectorCreator ;; invoke_this this (SelectorCreator.pseudoElement value).

Definition combine (selector1 : ref) (combinator : string) (selector2 : ref)
    : M store ref :=
  this <- new_SelectorCreator ;;
  s1 <- invoke selector1 SelectorCreator.stringify ;;
  s2 <- invoke selector2 SelectorCreator.stringify ;;
  invoke_this this
    (SelectorCreator.element (s1 +:+ " " +:+ combinator +:+ " " +:+ s2)).

End cssSelectorBuilder.

(** ** What a fragment call does, in one equation *)

(** The singleton field a fragment method guards is occupied. *)
Definition populated (f : fragment) (o : SelectorCreator.t) : bool :=
  match f with
  | Element _ => truthy (SelectorCreator.elementData o)
  | Id _ => truthy (SelectorCreator.idData o)
  | PseudoElement _ => negb (length (SelectorCreator.pseudoElementData o) =? 0)%nat
  | Class _ | Attr _ | PseudoClass _ => false
  end.

(** The text a fragment method stores for its argument. *)
Definition decorate (f : fragment) : string :=
  match f with
  | Element v => v
  | Id v => "#" +:+ v
  | Class v => "." +:+ v
  | Attr v => "[" +:+ v +:+ "]"
  | PseudoClass v => ":" +:+ v
  | PseudoElement v => "::" +:+ v
  end.

(** The instance after a fragment call that returned. *)
Definition stored (f : fragment) (o : SelectorCreator.t) : SelectorCreator.t :=
  SelectorCreator.set_line (rank f)
    match f with
    | Element _ => SelectorCreator.set_elementData (decorate f) o
    | Id _ => SelectorCreator.set_idData (decorate f) o
    | Class _ =>
        SelectorCreator.set_classData (SelectorCreator.classData o ++ [decorate f]) o
    | Attr _ =>
        SelectorCreator.set_attrData (SelectorCreator.attrData o ++ [decorate f]) o
    | PseudoClass _ =>
        SelectorCreator.set_pseudoClassData
          (SelectorCreator.pseudoClassData o ++ [decorate f]) o
    | PseudoElement _ =>
        SelectorCreator.set_pseudoElementData
          (SelectorCreator.pseudoElementData o ++ [decorate f]) o
    end.

(** The fragments of one rank among the calls of a chain, decorated, in call
    order. *)
Definition of_rank (r : Z) (fs : list fragment) : list string :=
  map decorate (List.filter (fun f => rank f =? r) fs).

(** The selector text the specification assigns to a chain of calls: the
    decorated fragments in the fixed order of kinds. *)
Definition rendering (fs : list fragment) : string :=
  join "" (of_rank 1 fs ++ of_rank 2 fs ++ of_rank 3 fs ++
           of_rank 4 fs ++ of_rank 5 fs ++ of_rank 6 fs).

(** The compound selector of an instance: its fragments, without the
    combinator. *)
Definition compound (o : SelectorCreator.t) : string :=
  SelectorCreator.elementData o +:+ SelectorCreator.idData o +:+
  join "" (SelectorCreator.classData o) +:+
  join "" (SelectorCreator.attrData o) +:+
  join "" (SelectorCreator.pseudoClassData o) +:+
  join "" (SelectorCreator.pseudoElementData o).

(** ** The life of an instance *)

(** Any method call of the class; a caller may catch what a call throws and
    go on using the instance. *)
Inductive method : Type :=
| Fragment (f : fragment)
| SetCombine (combinator selector : string)
| Stringify.

Definition perform (m : method) : M SelectorCreator.t unit :=
  match m with
  | Fragment f => call f
  | SetCombine c s => SelectorCreator.setCombine c s
  | Stringify => _ <- SelectorCreator.stringify ;; ret tt
  end.

(** The instance after a sequence of method calls, each of which returned
    or threw. *)
Definition lifetime (ms : list method) (o : SelectorCreator.t) : SelectorCreator.t :=
  fold_left (fun o m => snd (perform m o)) ms o.

(** The same through references: each call names the instance it is made
    on. *)
Definition lifetime_in (ms : list (ref * method)) (σ : store) : store :=
  fold_left (fun σ rm => snd (invoke (fst rm) (perform (snd rm)) σ)) ms σ.

(** The fragment methods that may be called once. *)
Definition singleton (f : fragment) : bool :=
  match f with
  | Element _ | Id _ | PseudoElement _ => true
  | Class _ | Attr _ | PseudoClass _ => false
  end.

(** ** A store to run examples in *)

(** Two instances as the facade builds them:
    [element('div').id('main')] and [element('table')]. *)
Definition example_store : store :=
  <[2%positive := stored (Element "table") SelectorCreator.constructor]>
    (<[1%positive := stored (Id "main") (stored (Element "div") SelectorCreator.constructor)]> ∅).

(** ** The facade entry points, by fragment *)

(** [cssSelectorBuilder.element(v)], [cssSelectorBuilder.id(v)], ...: the
    entry point that starts a chain with the given fragment. *)
Definition entry (f : fragment) : M store ref :=
  match f with
  | Element v => cssSelectorBuilder.element v
  | Id v => cssSelectorBuilder.id v
  | Class v => cssSelectorBuilder.class v
  | Attr v => cssSelectorBuilder.attr v
  | PseudoClass v => cssSelectorBuilder.pseudoClass v
  | PseudoElement v => cssSelectorBuilder.pseudoElement v
  end.

(** ** Which chains a new instance accepts *)

(** What the call [g] throws when it directly follows the call [f] that
    returned, read off two neighbouring calls alone: the ordering error when
    [g] ranks below [f], the duplicate error when [g] is the method [f] was
    and that method filled a singleton field. *)
Definition next_error (f g : fragment) : option Error :=
  if rank g <? rank f then Some OrderError
  else if (rank g =? rank f) && singleton f && truthy (decorate f)
       then Some DuplicateError
       else None.

Fixpoint first_error_after (f : fragment) (fs : list fragment) : option Error :=
  match fs with
  | [] => None
  | g :: fs' =>
      match next_error f g with
      | Some e => Some e
      | None => first_error_after g fs'
      end
  end.

Definition first_error (fs : list fragment) : option Error :=
  match fs with
  | [] => None
  | f :: fs' => first_error_after f fs'
  end.

(** No singleton field ranked above [line] is occupied. *)
Definition clean_above (o : SelectorCreator.t) : Prop :=
  forall g, SelectorCreator.line o < rank g -> populated g o = false.

(** ** The stage and the fields *)

(** [line] is the rank of the highest field that holds anything: the fields
    ranked above it are empty and, from rank 2 on, the field at it is not;
    and there is at most one pseudo-element. *)
Definition stage_invariant (o : SelectorCreator.t) : Prop :=
  0 <= SelectorCreator.line o <= 6 /\
  (SelectorCreator.line o < 1 -> SelectorCreator.elementData o = "") /\
  (SelectorCreator.line o < 2 -> SelectorCreator.idData o = "") /\
  (SelectorCreator.line o < 3 -> SelectorCreator.classData o = []) /\
  (SelectorCreator.line o < 4 -> SelectorCreator.attrData o = []) /\
  (SelectorCreator.line o < 5 -> SelectorCreator.pseudoClassData o = []) /\
  (SelectorCreator.line o < 6 -> SelectorCreator.pseudoElementData o = []) /\
  (SelectorCreator.line o = 2 -> SelectorCreator.idData o <> "") /\
  (SelectorCreator.line o = 3 -> SelectorCreator.classData o <> []) /\
  (SelectorCreator.line o = 4 -> SelectorCreator.attrData o <> []) /\
  (SelectorCreator.line o = 5 -> SelectorCreator.pseudoClassData o <> []) /\
  (SelectorCreator.line o = 6 -> SelectorCreator.pseudoElementData o <> []) /\
  (length (SelectorCreator.pseudoElementData o) <= 1)%nat.

(** ** Fields that only grow *)

(** The four array fields of [o'] are those of [o] with something pushed. *)
Definition extends_arrays (o o' : SelectorCreator.t) : Prop :=
  (exists l, SelectorCreator.classData o' = SelectorCreator.classData o ++ l) /\
  (exists l, SelectorCreator.attrData o' = SelectorCreator.attrData o ++ l) /\
  (exists l, SelectorCreator.pseudoClassData o' = SelectorCreator.pseudoClassData o ++ l) /\
  (exists l, SelectorCreator.pseudoElementData o' = SelectorCreator.pseudoElementData o ++ l).

(** The singleton fields of [o] that are occupied have the same content in
    [o']. *)
Definition keeps_singletons (o o' : SelectorCreator.t) : Prop :=
  (truthy (SelectorCreator.elementData o) = true ->
   SelectorCreator.elementData o' = SelectorCreator.elementData o) /\
  (truthy (SelectorCreator.idData o) = true ->
   SelectorCreator.idData o' = SelectorCreator.idData o) /\
  (SelectorCreator.pseudoElementData o <> [] ->
   SelectorCreator.pseudoElementData o' = SelectorCreator.pseudoElementData o).

(** ** Strings *)

Lemma append_nil_r (s : string) : s +:+ "" = s.
Proof.
  induction s as [|c s IH]; [reflexivity|].
  change (String c (s +:+ "") = String c s). now rewrite IH.
Qed.

Lemma append_assoc (s1 s2 s3 : string) : (s1 +:+ s2) +:+ s3 = s1 +:+ (s2 +:+ s3).
Proof.
  induction s1 as [|c s1 IH]; [reflexivity|].
  change (String c ((s1 +:+ s2) +:+ s3) = String c (s1 +:+ (s2 +:+ s3))).
  now rewrite IH.
Qed.

Lemma join_cons (x : string) (l : list string) : join "" (x :: l) = x +:+ join "" l.
Proof.
  unfold join. destruct l as [|y l]; simpl.
  - now rewrite append_nil_r.
  - reflexivity.
Qed.

Lemma join_app (l1 l2 : list string) : join "" (l1 ++ l2) = join "" l1 +:+ join "" l2.
Proof.
  induction l1 as [|x l1 IH].
  - reflexivity.
  - change ((x :: l1) ++ l2) with (x :: (l1 ++ l2)).
    now rewrite !join_cons, IH, append_assoc.
Qed.

Lemma truthy_false (s : string) : truthy s = false -> s = "".
Proof. destruct s; [reflexivity | discriminate]. Qed.

Lemma errors_differ : OrderError <> DuplicateError.
Proof. discriminate. Qed.

(** ** Fragment calls on one instance *)

Ltac unfold_methods :=
  unfold call, SelectorCreator.id, SelectorCreator.element, SelectorCreator.class,
    SelectorCreator.attr, SelectorCreator.pseudoClass, SelectorCreator.pseudoElement,
    SelectorCreator.setCombine, SelectorCreator.stringify, SelectorCreator.push,
    when_, error1, error2, bind, read, write, throw, ret.

Lemma call_outcome (f : fragment) (o : SelectorCreator.t) :
  call f o =
    if rank f <? SelectorCreator.line o then (Throw OrderError, o)
    else if populated f o then (Throw DuplicateError, o)
    else (Normal tt, stored f o).
Proof.
  destruct f; unfold_methods; simpl;
    destruct (_ <? SelectorCreator.line o); simpl; try reflexivity.
  - destruct (truthy _); reflexivity.
  - destruct (truthy _); reflexivity.
  - destruct (negb _); reflexivity.
Qed.

Lemma call_returns (f : fragment) (o o' : SelectorCreator.t) :
  call f o = (Normal tt, o') ->
  SelectorCreator.line o <= rank f /\ populated f o = false /\ o' = stored f o.
Proof.
  rewrite call_outcome.
  destruct (rank f <? SelectorCreator.line o) eqn:Hlt; [discriminate|].
  destruct (populated f o); [discriminate|].
  intros [= <-]. split; [lia | auto].
Qed.

Lemma call_state_on_throw (f : fragment) (o o' : SelectorCreator.t) (e : Error) :
  call f o = (Throw e, o') -> o' = o.
Proof.
  rewrite call_outcome.
  destruct (_ <? _); [congruence|]. destruct (populated f o); congruence.
Qed.

Lemma chain_cons (f : fragment) (fs : list fragment) (o : SelectorCreator.t) :
  chain (f :: fs) o =
    match call f o with
    | (Normal _, o') => chain fs o'
    | (Throw e, o') => (Throw e, o')
    end.
Proof. reflexivity. Qed.

Lemma chain_cons_returns (f : fragment) (fs : list fragment) (o o' : SelectorCreator.t) :
  chain (f :: fs) o = (Normal tt, o') ->
  call f o = (Normal tt, stored f o) /\ chain fs (stored f o) = (Normal tt, o').
Proof.
  rewrite chain_cons. destruct (call f o) as [[[]|e] o1] eqn:Hc; [|discriminate].
  apply call_returns in Hc as Hs. destruct Hs as (_ & _ & ->). auto.
Qed.

Lemma stringify_outcome (o : SelectorCreator.t) :
  SelectorCreator.stringify o = (Normal (compound o +:+ SelectorCreator.combinator o), o).
Proof.
  unfold_methods; unfold compound; simpl.
  now rewrite !append_assoc.
Qed.

Lemma setCombine_outcome (c s : string) (o : SelectorCreator.t) :
  SelectorCreator.setCombine c s o =
    (Normal tt, SelectorCreator.set_selector s (SelectorCreator.set_combinator c o)).
Proof. reflexivity. Qed.

Lemma perform_outcome (m : method) (o : SelectorCreator.t) :
  perform m o =
    match m with
    | Fragment f => call f o
    | SetCombine c s =>
        (Normal tt, SelectorCreator.set_selector s (SelectorCreator.set_combinator c o))
    | Stringify => (Normal tt, o)
    end.
Proof.
  destruct m; [reflexivity | reflexivity |].
  unfold perform, bind. now rewrite stringify_outcome.
Qed.

(** The state a call leaves behind, whatever its completion. *)
Lemma call_state (f : fragment) (o : SelectorCreator.t) :
  snd (call f o) = o \/ (call f o = (Normal tt, stored f o) /\ snd (call f o) = stored f o).
Proof.
  rewrite call_outcome.
  destruct (_ <? _); [now left|]. destruct (populated f o); [now left | now right].
Qed.

Lemma stored_line (f : fragment) (o : SelectorCreator.t) :
  SelectorCreator.line (stored f o) = rank f.
Proof. now destruct f. Qed.

Lemma perform_line (m : method) (o : SelectorCreator.t) :
  SelectorCreator.line o <= SelectorCreator.line (snd (perform m o)).
Proof.
  rewrite perform_outcome. destruct m as [f| |]; simpl; try lia.
  destruct (call_state f o) as [-> | [Hc ->]]; [lia|].
  apply call_returns in Hc as [Hle _]. now rewrite stored_line.
Qed.

Lemma lifetime_line (ms : list method) (o : SelectorCreator.t) :
  SelectorCreator.line o <= SelectorCreator.line (lifetime ms o).
Proof.
  revert o. induction ms as [|m ms IH]; intros o; simpl; [lia|].
  etransitivity; [apply (perform_line m) | apply IH].
Qed.

Lemma lifetime_app (ms1 ms2 : list method) (o : SelectorCreator.t) :
  lifetime (ms1 ++ ms2) o = lifetime ms2 (lifetime ms1 o).
Proof. apply fold_left_app. Qed.

(** ** Occupied singleton fields stay occupied *)

Lemma populated_same_rank (f f' : fragment) (o : SelectorCreator.t) :
  rank f' = rank f -> populated f' o = populated f o.
Proof. destruct f, f'; simpl; intros H; try discriminate H; reflexivity. Qed.

Lemma populated_after_call (f : fragment) (o : SelectorCreator.t) :
  singleton f = true ->
  (forall v, f = Element v -> v <> "") ->
  populated f (stored f o) = true.
Proof.
  intros Hs Hne. destruct f as [v|v|v|v|v|v]; try discriminate Hs; simpl.
  - destruct v; [now destruct (Hne "" eq_refl) | reflexivity].
  - reflexivity.
  - rewrite length_app. simpl. now destruct (length _).
Qed.

Lemma populated_stored (f g : fragment) (o : SelectorCreator.t) :
  populated g o = false ->
  populated f o = true ->
  populated f (stored g o) = true.
Proof.
  destruct f, g; simpl; intros Hg Hf; try congruence.
Qed.

Lemma populated_perform (f : fragment) (m : method) (o : SelectorCreator.t) :
  populated f o = true -> populated f (snd (perform m o)) = true.
Proof.
  intros Hf. rewrite perform_outcome. destruct m as [g| |]; simpl.
  - destruct (call_state g o) as [-> | [Hc ->]]; [exact Hf|].
    apply call_returns in Hc as (_ & Hg & _). now apply populated_stored.
  - now destruct f.
  - exact Hf.
Qed.

Lemma populated_lifetime (f : fragment) (ms : list method) (o : SelectorCreator.t) :
  populated f o = true -> populated f (lifetime ms o) = true.
Proof.
  revert o. induction ms as [|m ms IH]; intros o Hf; simpl; [exact Hf|].
  apply IH. now apply populated_perform.
Qed.

(** ** C1: a repeated singleton call *)

(** C1, counterexample.  [element('a').class('c').element('b')]: the two
    calls of the chain return, and the second [element] call then throws the
    ordering error of [error2], not the duplicate error of [error1]. *)
Lemma second_element_after_class_is_order_error :
  exists o,
    chain [Element "a"; Class "c"] SelectorCreator.constructor = (Normal tt, o) /\
    fst (call (Element "b") o) = Throw OrderError /\
    fst (call (Element "b") o) <> Throw DuplicateError.
Proof.
  eexists. split; [reflexivity|]. split; [reflexivity|]. discriminate.
Qed.

(** C1, as the code has it.  Once a call of [element] (with a non-empty
    value), [id] or [pseudoElement] has returned on an instance, then after
    any further method calls on it a call of the same method fails and
    leaves the instance as it was: with the ordering error when [line]
    exceeds the method's rank, and with the duplicate error otherwise. *)
Theorem second_singleton_call_fails
    (f f' : fragment) (ms : list method) (o o1 : SelectorCreator.t) :
  singleton f = true ->
  (forall v, f = Element v -> v <> "") ->
  rank f' = rank f ->
  call f o = (Normal tt, o1) ->
  call f' (lifetime ms o1) =
    (Throw (if rank f' <? SelectorCreator.line (lifetime ms o1)
            then OrderError else DuplicateError),
     lifetime ms o1).
Proof.
  intros Hs Hne Hr Hc.
  apply call_returns in Hc as (_ & _ & ->).
  assert (Hp : populated f' (lifetime ms (stored f o)) = true).
  { rewrite (populated_same_rank f f') by exact Hr.
    apply populated_lifetime. now apply populated_after_call. }
  rewrite call_outcome, Hp. now destruct (_ <? _).
Qed.

(** Instances: [id('x').class('c').id('y')] throws the ordering error,
    [id('x').id('y')] the duplicate error. *)
Lemma second_singleton_call_fails_witness :
  call (Id "y")
    (lifetime [Fragment (Class "c")] (stored (Id "x") SelectorCreator.constructor)) =
    (Throw OrderError,
     lifetime [Fragment (Class "c")] (stored (Id "x") SelectorCreator.constructor))
  /\
  call (Id "y") (lifetime [] (stored (Id "x") SelectorCreator.constructor)) =
    (Throw DuplicateError, lifetime [] (stored (Id "x") SelectorCreator.constructor)).
Proof.
  split.
  - apply (second_singleton_call_fails (Id "x") (Id "y") [Fragment (Class "c")]
             SelectorCreator.constructor);
      [reflexivity | discriminate | reflexivity | reflexivity].
  - apply (second_singleton_call_fails (Id "x") (Id "y") []
             SelectorCreator.constructor);
      [reflexivity | discriminate | reflexivity | reflexivity].
Defined.

(** ** C5: the ordering error *)

(** C5.  A fragment call throws the ordering error exactly when [line]
    exceeds the method's rank (element 1, id 2, class 3, attr 4,
    pseudoClass 5, pseudoElement 6).  So [element] after [class] and [class]
    after [attr] throw it, and two [class] calls in a row return with both
    values appended. *)
Theorem order_error_iff_stage_exceeds_rank :
  (forall f o, fst (call f o) = Throw OrderError <-> rank f < SelectorCreator.line o) /\
  (forall o v w, SelectorCreator.line o <= 3 ->
     chain [Class v; Element w] o = (Throw OrderError, stored (Class v) o)) /\
  (forall o v w, SelectorCreator.line o <= 4 ->
     chain [Attr v; Class w] o = (Throw OrderError, stored (Attr v) o)) /\
  (forall o v w, SelectorCreator.line o <= 3 ->
     chain [Class v; Class w] o = (Normal tt, stored (Class w) (stored (Class v) o)) /\
     SelectorCreator.classData (stored (Class w) (stored (Class v) o)) =
       SelectorCreator.classData o ++ ["." +:+ v; "." +:+ w]).
Proof.
  split; [|split; [|split]].
  - intros f o. rewrite call_outcome.
    destruct (rank f <? SelectorCreator.line o) eqn:Hlt; simpl.
    + split; [lia | reflexivity].
    + split; [|lia]. destruct (populated f o); simpl; [|discriminate].
      intros H. exfalso. apply errors_differ. congruence.
  - intros o v w Hle. rewrite chain_cons, call_outcome.
    replace (rank (Class v) <? SelectorCreator.line o) with false by (simpl; lia).
    simpl populated. cbv iota. now rewrite chain_cons, call_outcome.
  - intros o v w Hle. rewrite chain_cons, call_outcome.
    replace (rank (Attr v) <? SelectorCreator.line o) with false by (simpl; lia).
    simpl populated. cbv iota. now rewrite chain_cons, call_outcome.
  - intros o v w Hle. split.
    + rewrite chain_cons, call_outcome.
      replace (rank (Class v) <? SelectorCreator.line o) with false by (simpl; lia).
      simpl populated. cbv iota. now rewrite chain_cons, call_outcome.
    + simpl. now rewrite <- app_assoc.
Qed.

(** Instances on a new instance: [class('c').element('e')],
    [attr('a').class('c')] and [class('c').class('d')]. *)
Lemma order_error_iff_stage_exceeds_rank_witness :
  chain [Class "c"; Element "e"] SelectorCreator.constructor =
    (Throw OrderError, stored (Class "c") SelectorCreator.constructor) /\
  chain [Attr "a"; Class "c"] SelectorCreator.constructor =
    (Throw OrderError, stored (Attr "a") SelectorCreator.constructor) /\
  SelectorCreator.classData
    (snd (chain [Class "c"; Class "d"] SelectorCreator.constructor)) = [".c"; ".d"].
Proof.
  destruct order_error_iff_stage_exceeds_rank as (_ & H1 & H2 & H3).
  split; [|split].
  - apply H1. vm_compute. discriminate.
  - apply H2. vm_compute. discriminate.
  - destruct (H3 SelectorCreator.constructor "c" "d") as [E1 E2].
    + vm_compute. discriminate.
    + rewrite E1. exact E2.
Defined.

(** ** C6: the stage never decreases *)

(** C6.  A fragment call that returns leaves [line] equal to the method's
    rank, which the value of [line] before the call did not exceed; and over
    any sequence of method calls on an instance, returning or throwing,
    [line] at a later point is never below [line] at an earlier point. *)
Theorem stage_never_decreases :
  (forall f o o', call f o = (Normal tt, o') ->
     SelectorCreator.line o' = rank f /\ SelectorCreator.line o <= rank f) /\
  (forall ms1 ms2 o,
     SelectorCreator.line (lifetime ms1 o) <=
     SelectorCreator.line (lifetime (ms1 ++ ms2) o)).
Proof.
  split.
  - intros f o o' Hc. apply call_returns in Hc as (Hle & _ & ->).
    now rewrite stored_line.
  - intros ms1 ms2 o. rewrite lifetime_app. apply lifetime_line.
Qed.

(** Instance: [class('c')] on a new instance. *)
Lemma stage_never_decreases_witness :
  SelectorCreator.line (stored (Class "c") SelectorCreator.constructor) = 3 /\
  SelectorCreator.line SelectorCreator.constructor <= 3.
Proof.
  exact (proj1 stage_never_decreases (Class "c") SelectorCreator.constructor _ eq_refl).
Defined.

(** ** C2: what [stringify] returns after a chain of calls *)

Lemma of_rank_cons (r : Z) (f : fragment) (fs : list fragment) :
  of_rank r (f :: fs) =
    if rank f =? r then decorate f :: of_rank r fs else of_rank r fs.
Proof. unfold of_rank. simpl. now destruct (rank f =? r). Qed.

(** The fields after a chain that returned: every call appended its
    decorated value to the field of its kind and touched no other field. *)
Lemma chain_fields (fs : list fragment) (o o' : SelectorCreator.t) :
  chain fs o = (Normal tt, o') ->
  SelectorCreator.elementData o' =
    SelectorCreator.elementData o +:+ join "" (of_rank 1 fs) /\
  SelectorCreator.idData o' = SelectorCreator.idData o +:+ join "" (of_rank 2 fs) /\
  SelectorCreator.classData o' = SelectorCreator.classData o ++ of_rank 3 fs /\
  SelectorCreator.attrData o' = SelectorCreator.attrData o ++ of_rank 4 fs /\
  SelectorCreator.pseudoClassData o' =
    SelectorCreator.pseudoClassData o ++ of_rank 5 fs /\
  SelectorCreator.pseudoElementData o' =
    SelectorCreator.pseudoElementData o ++ of_rank 6 fs /\
  SelectorCreator.combinator o' = SelectorCreator.combinator o.
Proof.
  revert o. induction fs as [|f fs IH]; intros o Hc.
  - injection Hc as <-. unfold of_rank. simpl.
    now rewrite !append_nil_r, !app_nil_r.
  - apply chain_cons_returns in Hc as [Hf Hc].
    apply call_returns in Hf as (_ & Hp & _).
    apply IH in Hc as (He & Hi & Hcl & Ha & Hpc & Hpe & Hco).
    rewrite He, Hi, Hcl, Ha, Hpc, Hpe, Hco, !of_rank_cons.
    destruct f as [v|v|v|v|v|v]; simpl in Hp |- *;
      rewrite <- ?app_assoc; repeat split; try reflexivity.
    + now rewrite (truthy_false _ Hp), join_cons.
    + now rewrite (truthy_false _ Hp), join_cons.
Qed.

(** C2.  After a chain of fragment calls that all returned on a new
    instance, [stringify()] returns the decorated fragments of the chain
    concatenated in the fixed order of kinds (element, id, classes,
    attributes, pseudo-classes, pseudo-element), each kind in call order;
    and [id('main').class('container').class('editable').stringify()] is
    ["#main.container.editable"]. *)
Theorem stringify_renders_chain :
  (forall fs o,
     chain fs SelectorCreator.constructor = (Normal tt, o) ->
     SelectorCreator.stringify o = (Normal (rendering fs), o)) /\
  fst ((chain [Id "main"; Class "container"; Class "editable"] ;;
        SelectorCreator.stringify) SelectorCreator.constructor) =
    Normal "#main.container.editable".
Proof.
  split; [|reflexivity].
  intros fs o Hc. rewrite stringify_outcome. f_equal. f_equal.
  apply chain_fields in Hc as (He & Hi & Hcl & Ha & Hpc & Hpe & Hco).
  unfold compound, rendering.
  rewrite He, Hi, Hcl, Ha, Hpc, Hpe, Hco, !join_app. simpl.
  now rewrite append_nil_r.
Qed.

(** Instance: [element('a').attr('href$=.png').pseudoClass('focus')]. *)
Lemma stringify_renders_chain_witness :
  SelectorCreator.stringify
    (stored (PseudoClass "focus")
       (stored (Attr "href$=.png") (stored (Element "a") SelectorCreator.constructor))) =
    (Normal "a[href$=.png]:focus",
     stored (PseudoClass "focus")
       (stored (Attr "href$=.png") (stored (Element "a") SelectorCreator.constructor))).
Proof.
  exact (proj1 stringify_renders_chain
           [Element "a"; Attr "href$=.png"; PseudoClass "focus"] _ eq_refl).
Defined.

(** ** C7: [stringify] is an observation *)

(** C7.  [stringify()] leaves every field of the instance as it was, in the
    store too, and two calls in a row return the same string. *)
Theorem stringify_is_pure :
  (forall o, snd (SelectorCreator.stringify o) = o) /\
  (forall o, exists s,
     (s1 <- SelectorCreator.stringify ;;
      s2 <- SelectorCreator.stringify ;;
      ret (s1, s2)) o = (Normal (s, s), o)) /\
  (forall (σ : store) (this : ref),
     snd (invoke this SelectorCreator.stringify σ) = σ).
Proof.
  split; [|split].
  - intros o. now rewrite stringify_outcome.
  - intros o. eexists. unfold bind. rewrite !stringify_outcome. reflexivity.
  - intros σ this. unfold invoke.
    destruct (σ !! this) as [o|] eqn:Ho; [|reflexivity].
    rewrite stringify_outcome. simpl. now apply insert_id.
Qed.

(** ** Method calls through references *)

Lemma invoke_outcome {A} (σ : store) (this : ref) (o : SelectorCreator.t)
    (m : M SelectorCreator.t A) :
  σ !! this = Some o ->
  invoke this m σ = (fst (m o), <[this := snd (m o)]> σ).
Proof. intros Ho. unfold invoke. rewrite Ho. now destruct (m o). Qed.

Lemma invoke_stringify (σ : store) (this : ref) (o : SelectorCreator.t) :
  σ !! this = Some o ->
  invoke this SelectorCreator.stringify σ =
    (Normal (compound o +:+ SelectorCreator.combinator o), σ).
Proof.
  intros Ho. rewrite (invoke_outcome σ this o) by exact Ho.
  rewrite stringify_outcome. simpl. f_equal. now apply insert_id.
Qed.

(** A [stringify()] call that returns was made on an instance. *)
Lemma invoke_stringify_returns (σ : store) (this : ref) (s : string) :
  fst (invoke this SelectorCreator.stringify σ) = Normal s ->
  exists o, σ !! this = Some o /\ s = compound o +:+ SelectorCreator.combinator o.
Proof.
  unfold invoke. destruct (σ !! this) as [o|]; [|discriminate].
  rewrite stringify_outcome. simpl. intros [= <-]. now exists o.
Qed.

Lemma invoke_other {A} (σ : store) (this r : ref) (m : M SelectorCreator.t A) :
  r <> this -> snd (invoke this m σ) !! r = σ !! r.
Proof.
  intros Hne. unfold invoke. destruct (σ !! this) as [o|]; [|reflexivity].
  destruct (m o) as [c o']. simpl. now apply lookup_insert_ne.
Qed.

Lemma lifetime_in_other (ms : list (ref * method)) (σ : store) (r : ref) :
  Forall (fun rm => fst rm <> r) ms -> lifetime_in ms σ !! r = σ !! r.
Proof.
  intros Hms. revert σ. induction Hms as [|[r' m] ms Hne _ IH]; intros σ; simpl.
  - reflexivity.
  - rewrite IH. apply invoke_other. simpl in Hne. congruence.
Qed.

(** The reference [new] hands out designates no earlier instance. *)
Lemma new_is_fresh (σ : store) : σ !! fresh (dom σ) = None.
Proof. apply not_elem_of_dom. apply is_fresh. Qed.

Lemma allocated_not_fresh (σ : store) (r : ref) (o : SelectorCreator.t) :
  σ !! r = Some o -> r <> fresh (dom σ).
Proof. intros Ho ->. rewrite new_is_fresh in Ho. discriminate. Qed.

(** [combine] on two instances: a new instance whose [elementData] is the
    two rendered operands around the combinator; the operands are read and
    left as they were. *)
Lemma combine_outcome (σ : store) (a b : ref) (c : string)
    (oa ob : SelectorCreator.t) :
  σ !! a = Some oa -> σ !! b = Some ob ->
  cssSelectorBuilder.combine a c b σ =
    (Normal (fresh (dom σ)),
     <[fresh (dom σ) :=
         stored (Element ((compound oa +:+ SelectorCreator.combinator oa) +:+ " " +:+
                          c +:+ " " +:+
                          (compound ob +:+ SelectorCreator.combinator ob)))
           SelectorCreator.constructor]> σ).
Proof.
  intros Ha Hb.
  pose proof (allocated_not_fresh σ a oa Ha) as Hna.
  pose proof (allocated_not_fresh σ b ob Hb) as Hnb.
  unfold cssSelectorBuilder.combine, new_SelectorCreator, invoke_this, bind.
  rewrite (invoke_stringify _ a oa) by (now rewrite lookup_insert_ne).
  rewrite (invoke_stringify _ b ob) by (now rewrite lookup_insert_ne).
  rewrite (invoke_outcome _ _ SelectorCreator.constructor) by apply lookup_insert_eq.
  change (SelectorCreator.element ?s) with (call (Element s)).
  rewrite call_outcome. simpl. unfold ret. f_equal.
  apply insert_insert_eq.
Qed.

Lemma compound_of_element (s : string) :
  compound (stored (Element s) SelectorCreator.constructor) = s.
Proof. unfold compound, join. simpl. apply append_nil_r. Qed.

(** ** C3: the string of a combination *)

(** C3.  For instances [a] and [b] whose [stringify()] returns [sa] and
    [sb], and any combinator string [c],
    [combine(a, c, b).stringify()] returns [sa + " " + c + " " + sb]. *)
Theorem combine_stringify (σ : store) (a b : ref) (c sa sb : string) :
  fst (invoke a SelectorCreator.stringify σ) = Normal sa ->
  fst (invoke b SelectorCreator.stringify σ) = Normal sb ->
  fst ((s <- cssSelectorBuilder.combine a c b ;;
        invoke s SelectorCreator.stringify) σ) =
    Normal (sa +:+ " " +:+ c +:+ " " +:+ sb).
Proof.
  intros Ha Hb.
  apply invoke_stringify_returns in Ha as (oa & Ha & ->).
  apply invoke_stringify_returns in Hb as (ob & Hb & ->).
  unfold bind at 1. rewrite (combine_outcome σ a b c oa ob Ha Hb).
  erewrite invoke_stringify by apply lookup_insert_eq.
  simpl. now rewrite compound_of_element, append_nil_r.
Qed.

(** Instance: [combine(element('div').id('main'), '+', element('table'))]. *)
Lemma combine_stringify_witness :
  fst ((s <- cssSelectorBuilder.combine 1%positive "+" 2%positive ;;
        invoke s SelectorCreator.stringify) example_store) =
    Normal "div#main + table".
Proof.
  exact (combine_stringify example_store 1%positive 2%positive "+" "div#main" "table"
           eq_refl eq_refl).
Defined.

(** ** C4: the combination does not follow its operands *)

(** C4.  Once [combine(a, c, b)] has returned [s], no sequence of method
    calls on [a] and [b] changes the instance [s] refers to, nor what
    [s.stringify()] returns. *)
Theorem combine_frame (σ σ1 : store) (a b s : ref) (c : string)
    (ms : list (ref * method)) :
  is_Some (σ !! a) -> is_Some (σ !! b) ->
  cssSelectorBuilder.combine a c b σ = (Normal s, σ1) ->
  Forall (fun rm => fst rm = a \/ fst rm = b) ms ->
  lifetime_in ms σ1 !! s = σ1 !! s /\
  fst (invoke s SelectorCreator.stringify (lifetime_in ms σ1)) =
    fst (invoke s SelectorCreator.stringify σ1).
Proof.
  intros [oa Ha] [ob Hb] Hc Hms.
  rewrite (combine_outcome σ a b c oa ob Ha Hb) in Hc.
  assert (Hsa : a <> s).
  { injection Hc as <- _. exact (allocated_not_fresh σ a oa Ha). }
  assert (Hsb : b <> s).
  { injection Hc as <- _. exact (allocated_not_fresh σ b ob Hb). }
  assert (Hs : lifetime_in ms σ1 !! s = σ1 !! s).
  { apply lifetime_in_other. eapply Forall_impl; [exact Hms|].
    intros [r m] [Hr | Hr]; simpl in Hr |- *; now subst r. }
  split; [exact Hs|].
  unfold invoke. rewrite Hs.
  destruct (σ1 !! s) as [o|]; [|reflexivity].
  now rewrite stringify_outcome.
Qed.

(** Instance: after the combination of the two example instances, a class
    is added to the left operand and an id to the right one. *)
Lemma combine_frame_witness :
  lifetime_in [(1%positive, Fragment (Class "wide")); (2%positive, Fragment (Id "t"))]
    (snd (cssSelectorBuilder.combine 1%positive "+" 2%positive example_store))
    !! 3%positive =
  snd (cssSelectorBuilder.combine 1%positive "+" 2%positive example_store) !! 3%positive /\
  fst (invoke 3%positive SelectorCreator.stringify
         (lifetime_in
            [(1%positive, Fragment (Class "wide")); (2%positive, Fragment (Id "t"))]
            (snd (cssSelectorBuilder.combine 1%positive "+" 2%positive example_store)))) =
  fst (invoke 3%positive SelectorCreator.stringify
         (snd (cssSelectorBuilder.combine 1%positive "+" 2%positive example_store))).
Proof.
  apply (combine_frame example_store _ 1%positive 2%positive _ "+").
  - now exists (stored (Id "main") (stored (Element "div") SelectorCreator.constructor)).
  - now exists (stored (Element "table") SelectorCreator.constructor).
  - vm_compute. reflexivity.
  - constructor; [now left|]. constructor; [now right|]. constructor.
Defined.
(** ** C8: the combinator and selector fields *)

(** C8.  After [setCombine(c, s)], [stringify()] returns the compound
    selector of the instance followed by [c]; the stored [s] does not
    appear and does not influence the result.  [combine] does not go through
    [setCombine]: the instance it returns has the whole combined string in
    [elementData] and empty [combinator] and [selector]. *)
Theorem setCombine_selector_ignored :
  (forall o c s,
     (SelectorCreator.setCombine c s ;; SelectorCreator.stringify) o =
       (Normal (compound o +:+ c),
        SelectorCreator.set_selector s (SelectorCreator.set_combinator c o))) /\
  (forall o c s s',
     fst ((SelectorCreator.setCombine c s ;; SelectorCreator.stringify) o) =
     fst ((SelectorCreator.setCombine c s' ;; SelectorCreator.stringify) o)) /\
  (forall o, SelectorCreator.combinator o = "" ->
     fst (SelectorCreator.stringify o) = Normal (compound o)) /\
  (forall (σ : store) a b c sa sb,
     fst (invoke a SelectorCreator.stringify σ) = Normal sa ->
     fst (invoke b SelectorCreator.stringify σ) = Normal sb ->
     exists s σ1 o,
       cssSelectorBuilder.combine a c b σ = (Normal s, σ1) /\ σ1 !! s = Some o /\
       SelectorCreator.elementData o = sa +:+ " " +:+ c +:+ " " +:+ sb /\
       SelectorCreator.combinator o = "" /\ SelectorCreator.selector o = "").
Proof.
  split; [|split; [|split]].
  - intros o c s. unfold bind.
    now rewrite setCombine_outcome, stringify_outcome.
  - intros o c s s'. unfold bind.
    now rewrite !setCombine_outcome, !stringify_outcome.
  - intros o Hc. now rewrite stringify_outcome, Hc, append_nil_r.
  - intros σ a b c sa sb Ha Hb.
    apply invoke_stringify_returns in Ha as (oa & Ha & ->).
    apply invoke_stringify_returns in Hb as (ob & Hb & ->).
    eexists _, _, _. split; [exact (combine_outcome σ a b c oa ob Ha Hb)|].
    split; [apply lookup_insert_eq|]. now split.
Qed.

(** Instances: [element('div').id('main')] has an empty combinator, and the
    combination of the two example instances with ['~']. *)
Lemma setCombine_selector_ignored_witness :
  fst (SelectorCreator.stringify
         (stored (Id "main") (stored (Element "div") SelectorCreator.constructor))) =
    Normal "div#main" /\
  exists s σ1 o,
    cssSelectorBuilder.combine 1%positive "~" 2%positive example_store = (Normal s, σ1) /\
    σ1 !! s = Some o /\
    SelectorCreator.elementData o = "div#main ~ table" /\
    SelectorCreator.combinator o = "" /\ SelectorCreator.selector o = "".
Proof.
  destruct setCombine_selector_ignored as (_ & _ & H3 & H4).
  split.
  - exact (H3 (stored (Id "main") (stored (Element "div") SelectorCreator.constructor))
             eq_refl).
  - exact (H4 example_store 1%positive 2%positive "~" "div#main" "table" eq_refl eq_refl).
Defined.

(** ** C9: fragment calls on a combination *)

Lemma truthy_combined (sa c sb : string) :
  truthy (sa +:+ " " +:+ c +:+ " " +:+ sb) = true.
Proof. now destruct sa. Qed.

(** On a new instance whose [elementData] is a non-empty string [s]: every
    fragment method but [element] returns and the compound selector becomes
    [s] followed by the decorated value; [element] throws the duplicate
    error. *)
Lemma fragment_after_element (s : string) (f : fragment) :
  truthy s = true ->
  call f (stored (Element s) SelectorCreator.constructor) =
    if rank f =? 1
    then (Throw DuplicateError, stored (Element s) SelectorCreator.constructor)
    else (Normal tt, stored f (stored (Element s) SelectorCreator.constructor)).
Proof.
  intros Hs. rewrite call_outcome. destruct f; simpl; try reflexivity.
  now rewrite Hs.
Qed.

Lemma stored_combinator (f : fragment) (o : SelectorCreator.t) :
  SelectorCreator.combinator (stored f o) = SelectorCreator.combinator o.
Proof. now destruct f. Qed.

Lemma compound_after_element (s : string) (f : fragment) :
  rank f <> 1 ->
  compound (stored f (stored (Element s) SelectorCreator.constructor)) = s +:+ decorate f.
Proof.
  intros Hr. destruct f; [now destruct Hr | ..];
    unfold compound, join; simpl; now rewrite ?append_nil_r.
Qed.

(** C9.  The instance [combine(a, c, b)] returns has [line] 1 and the whole
    combined string as [elementData].  On it every fragment method but
    [element] returns and [stringify()] then gives the combined string
    followed by the decorated value; a further [element] call throws the
    duplicate error. *)
Theorem fragments_on_combination (σ : store) (a b : ref) (c sa sb : string) :
  fst (invoke a SelectorCreator.stringify σ) = Normal sa ->
  fst (invoke b SelectorCreator.stringify σ) = Normal sb ->
  (exists s σ1 o,
     cssSelectorBuilder.combine a c b σ = (Normal s, σ1) /\ σ1 !! s = Some o /\
     SelectorCreator.line o = 1 /\
     SelectorCreator.elementData o = sa +:+ " " +:+ c +:+ " " +:+ sb) /\
  (forall f, rank f <> 1 ->
     fst ((s <- cssSelectorBuilder.combine a c b ;;
           s' <- invoke_this s (call f) ;;
           invoke s' SelectorCreator.stringify) σ) =
       Normal ((sa +:+ " " +:+ c +:+ " " +:+ sb) +:+ decorate f)) /\
  (forall v,
     fst ((s <- cssSelectorBuilder.combine a c b ;;
           invoke_this s (SelectorCreator.element v)) σ) = Throw DuplicateError).
Proof.
  intros Ha Hb.
  apply invoke_stringify_returns in Ha as (oa & Ha & ->).
  apply invoke_stringify_returns in Hb as (ob & Hb & ->).
  pose proof (combine_outcome σ a b c oa ob Ha Hb) as Hc.
  pose proof (truthy_combined (compound oa +:+ SelectorCreator.combinator oa) c
                (compound ob +:+ SelectorCreator.combinator ob)) as Ht.
  split; [|split].
  - eexists _, _, _. split; [exact Hc|]. split; [apply lookup_insert_eq|]. now split.
  - intros f Hr. unfold bind at 1. rewrite Hc.
    unfold invoke_this, bind.
    erewrite invoke_outcome by apply lookup_insert_eq.
    rewrite (fragment_after_element _ f Ht).
    replace (rank f =? 1) with false by (symmetry; now apply Z.eqb_neq).
    simpl. unfold ret.
    erewrite invoke_stringify by apply lookup_insert_eq.
    rewrite !stored_combinator, compound_after_element by exact Hr.
    simpl. now rewrite append_nil_r.
  - intros v. unfold bind at 1. rewrite Hc.
    unfold invoke_this, bind.
    erewrite invoke_outcome by apply lookup_insert_eq.
    change (SelectorCreator.element v) with (call (Element v)).
    now rewrite (fragment_after_element _ (Element v) Ht).
Qed.

(** Instances: [combine(a, '+', b).id('x').stringify()] and
    [combine(a, '+', b).element('p')] on the two example instances. *)
Lemma fragments_on_combination_witness :
  fst ((s <- cssSelectorBuilder.combine 1%positive "+" 2%positive ;;
        s' <- invoke_this s (call (Id "x")) ;;
        invoke s' SelectorCreator.stringify) example_store) =
    Normal "div#main + table#x" /\
  fst ((s <- cssSelectorBuilder.combine 1%positive "+" 2%positive ;;
        invoke_this s (SelectorCreator.element "p")) example_store) =
    Throw DuplicateError.
Proof.
  destruct (fragments_on_combination example_store 1%positive 2%positive "+"
              "div#main" "table" eq_refl eq_refl) as (_ & H2 & H3).
  split.
  - apply (H2 (Id "x")). discriminate.
  - apply H3.
Defined.

(** ** C10: the rectangle *)

(** C10.  [Rectangle(w, h)] has [width] [w] and [height] [h], and its
    [getArea()] is the product of the two fields as they are when it is
    called: [w * h] on the object as built, and the product of the new
    values once the fields have been assigned. *)
Theorem Rectangle_fields_and_area (w h : float) :
  Rectangle.width (Rectangle w h) = w /\
  Rectangle.height (Rectangle w h) = h /\
  Rectangle.getArea (Rectangle w h) = (w * h)%float /\
  (forall this, Rectangle.getArea this = (Rectangle.width this * Rectangle.height this)%float) /\
  (forall w' h',
     Rectangle.getArea (Rectangle.set_height h' (Rectangle.set_width w' (Rectangle w h))) =
       (w' * h')%float) /\
  Rectangle.getArea (Rectangle 10 20) = 200%float.
Proof. repeat split. Qed.

(** * Further properties of the selector builder *)

(** ** A call that throws changes nothing *)

(** X1.  Only the fragment methods throw, and only the ordering and the
    duplicate error; a call that throws leaves the instance it was made on,
    and so the whole store, as it was. *)
Theorem throwing_call_changes_nothing
    (σ : store) (this : ref) (o : SelectorCreator.t) (m : method) (e : Error) :
  σ !! this = Some o ->
  fst (invoke this (perform m) σ) = Throw e ->
  snd (invoke this (perform m) σ) = σ /\
  (e = OrderError \/ e = DuplicateError) /\
  exists f, m = Fragment f.
Proof.
  intros Ho. rewrite (invoke_outcome σ this o) by exact Ho.
  rewrite perform_outcome. simpl.
  destruct m as [f| |]; simpl; [|discriminate|discriminate].
  rewrite call_outcome.
  destruct (rank f <? SelectorCreator.line o); simpl.
  - intros [= <-]. split; [now apply insert_id|]. split; [now left | now exists f].
  - destruct (populated f o); simpl; [|discriminate].
    intros [= <-]. split; [now apply insert_id|]. split; [now right | now exists f].
Qed.

(** Instance: [element('div').id('main')], then [element('p')] on it. *)
Lemma throwing_call_changes_nothing_witness :
  snd (invoke 1%positive (perform (Fragment (Element "p"))) example_store) = example_store /\
  (OrderError = OrderError \/ OrderError = DuplicateError) /\
  exists f, Fragment (Element "p") = Fragment f.
Proof.
  exact (throwing_call_changes_nothing example_store 1%positive _
           (Fragment (Element "p")) OrderError eq_refl eq_refl).
Defined.

(** ** The chains a new instance accepts *)

Lemma clean_above_new : clean_above SelectorCreator.constructor.
Proof. intros g _. now destruct g. Qed.

Lemma clean_above_stored (f : fragment) (o : SelectorCreator.t) :
  SelectorCreator.line o <= rank f ->
  clean_above o ->
  clean_above (stored f o).
Proof.
  intros Hle Hc g Hg. rewrite stored_line in Hg.
  assert (Hgo : populated g o = false) by (apply Hc; lia).
  destruct f, g; simpl in Hg, Hgo |- *; try reflexivity; try lia; exact Hgo.
Qed.

(** After [f] returned, the field of its kind is occupied exactly when [f]
    is a singleton method that stored a non-empty text. *)
Lemma populated_at_rank (f g : fragment) (o : SelectorCreator.t) :
  populated f o = false ->
  rank g = rank f ->
  populated g (stored f o) = singleton f && truthy (decorate f).
Proof.
  intros Hp Hr.
  destruct f, g; simpl in Hr, Hp |- *; try discriminate Hr; try reflexivity.
  rewrite length_app. simpl. now destruct (length _).
Qed.

Lemma completion_of_error (fs : list fragment) (f : fragment) (o : SelectorCreator.t) :
  SelectorCreator.line o <= rank f ->
  clean_above o ->
  populated f o = false ->
  fst (chain fs (stored f o)) =
    match first_error_after f fs with
    | None => Normal tt
    | Some e => Throw e
    end.
Proof.
  revert f o. induction fs as [|g fs IH]; intros f o Hle Hc Hp; [reflexivity|].
  rewrite chain_cons, call_outcome, stored_line. simpl first_error_after.
  unfold next_error.
  destruct (rank g <? rank f) eqn:Hlt; [reflexivity|].
  apply Z.ltb_ge in Hlt.
  destruct (rank g =? rank f) eqn:Heq.
  - apply Z.eqb_eq in Heq. rewrite (populated_at_rank f g o Hp Heq). simpl.
    destruct (singleton f && truthy (decorate f)) eqn:Hs; [reflexivity|].
    apply IH.
    + rewrite stored_line. lia.
    + now apply clean_above_stored.
    + now rewrite (populated_at_rank f g o Hp Heq).
  - apply Z.eqb_neq in Heq. simpl.
    assert (Hg : populated g (stored f o) = false).
    { apply clean_above_stored; [exact Hle | exact Hc |]. rewrite stored_line. lia. }
    rewrite Hg. apply IH.
    + rewrite stored_line. lia.
    + now apply clean_above_stored.
    + exact Hg.
Qed.

(** X2.  Whether a chain of fragment calls on a new instance returns, and
    what it throws when it does not, is decided by the first pair of
    neighbouring calls that is out of order or repeats a singleton method
    that stored a non-empty text; the first call of a chain always
    returns. *)
Theorem chain_completion (fs : list fragment) :
  fst (chain fs SelectorCreator.constructor) =
    match first_error fs with
    | None => Normal tt
    | Some e => Throw e
    end.
Proof.
  destruct fs as [|f fs]; [reflexivity|].
  rewrite chain_cons, call_outcome.
  replace (rank f <? SelectorCreator.line SelectorCreator.constructor) with false
    by (now destruct f).
  rewrite (clean_above_new f) by (now destruct f).
  apply completion_of_error; [now destruct f | apply clean_above_new |].
  apply clean_above_new. now destruct f.
Qed.

Lemma first_error_after_duplicate (f : fragment) (fs : list fragment) :
  first_error_after f fs = Some DuplicateError ->
  exists fs1 g h fs2,
    f :: fs = fs1 ++ g :: h :: fs2 /\ rank h = rank g /\ singleton g = true.
Proof.
  revert f. induction fs as [|h fs IH]; intros f; simpl; [discriminate|].
  unfold next_error.
  destruct (rank h <? rank f).
  - intros H. exfalso. apply errors_differ. congruence.
  - destruct (rank h =? rank f) eqn:Heq; simpl.
    + destruct (singleton f) eqn:Hs; simpl.
      * destruct (truthy (decorate f)).
        -- intros _. exists [], f, h, fs. apply Z.eqb_eq in Heq. now split.
        -- intros H. apply IH in H as (fs1 & g & h' & fs2 & -> & Hr & Hg).
           now exists (f :: fs1), g, h', fs2.
      * intros H. apply IH in H as (fs1 & g & h' & fs2 & -> & Hr & Hg).
        now exists (f :: fs1), g, h', fs2.
    + intros H. apply IH in H as (fs1 & g & h' & fs2 & -> & Hr & Hg).
      now exists (f :: fs1), g, h', fs2.
Qed.

(** X3.  On a new instance the duplicate error comes only from calling a
    singleton method twice in a row: a chain that throws it contains two
    neighbouring calls of the same rank, of a singleton method. *)
Theorem duplicate_error_is_an_immediate_repeat (fs : list fragment) :
  fst (chain fs SelectorCreator.constructor) = Throw DuplicateError ->
  exists fs1 g h fs2,
    fs = fs1 ++ g :: h :: fs2 /\ rank h = rank g /\ singleton g = true.
Proof.
  destruct fs as [|f fs]; [discriminate|].
  rewrite chain_cons, call_outcome.
  replace (rank f <? SelectorCreator.line SelectorCreator.constructor) with false
    by (now destruct f).
  rewrite (clean_above_new f) by (now destruct f).
  rewrite completion_of_error;
    [| now destruct f | apply clean_above_new | apply clean_above_new; now destruct f].
  destruct (first_error_after f fs) as [e|] eqn:He; [|discriminate].
  intros [= ->]. now apply first_error_after_duplicate.
Qed.

(** Instance: [id('a').id('b')]. *)
Lemma duplicate_error_is_an_immediate_repeat_witness :
  exists fs1 g h fs2,
    [Id "a"; Id "b"] = fs1 ++ g :: h :: fs2 /\ rank h = rank g /\ singleton g = true.
Proof.
  exact (duplicate_error_is_an_immediate_repeat [Id "a"; Id "b"] eq_refl).
Defined.

(** ** The stage tracks the fields *)

Lemma stage_invariant_new : stage_invariant SelectorCreator.constructor.
Proof. unfold stage_invariant. simpl. repeat split; try lia; try discriminate. Qed.

Lemma app_not_nil (l : list string) (x : string) : l ++ [x] <> [].
Proof. now destruct l. Qed.

Lemma stage_invariant_stored (f : fragment) (o : SelectorCreator.t) :
  SelectorCreator.line o <= rank f ->
  populated f o = false ->
  stage_invariant o ->
  stage_invariant (stored f o).
Proof.
  unfold stage_invariant.
  intros Hle Hp (Hb & H1 & H2 & H3 & H4 & H5 & H6 & N2 & N3 & N4 & N5 & N6 & Hpe).
  destruct f as [v|v|v|v|v|v]; simpl in Hle, Hp |- *;
    repeat split; try lia; try intros Hl;
    try (apply H1; lia); try (apply H2; lia); try (apply H3; lia);
    try (apply H4; lia); try (apply H5; lia); try (apply H6; lia);
    try discriminate; try apply app_not_nil.
  destruct (SelectorCreator.pseudoElementData o); [simpl; lia | discriminate].
Qed.

Lemma stage_invariant_perform (m : method) (o : SelectorCreator.t) :
  stage_invariant o -> stage_invariant (snd (perform m o)).
Proof.
  intros Hi. rewrite perform_outcome. destruct m as [f| |]; simpl.
  - destruct (call_state f o) as [-> | [Hc ->]]; [exact Hi|].
    apply call_returns in Hc as (Hle & Hp & _). now apply stage_invariant_stored.
  - exact Hi.
  - exact Hi.
Qed.

Lemma stage_invariant_lifetime (ms : list method) (o : SelectorCreator.t) :
  stage_invariant o -> stage_invariant (lifetime ms o).
Proof.
  revert o. induction ms as [|m ms IH]; intros o Hi; simpl; [exact Hi|].
  apply IH. now apply stage_invariant_perform.
Qed.

(** X4.  Whatever methods are called on a new instance, returning or
    throwing, [line] stays between 0 and 6 and is the rank of the highest
    field that holds anything: every field ranked above [line] is empty,
    and from rank 2 on the field ranked [line] is not. *)
Theorem stage_is_highest_stored_rank (ms : list method) :
  0 <= SelectorCreator.line (lifetime ms SelectorCreator.constructor) <= 6 /\
  (SelectorCreator.line (lifetime ms SelectorCreator.constructor) < 1 ->
     SelectorCreator.elementData (lifetime ms SelectorCreator.constructor) = "") /\
  (SelectorCreator.line (lifetime ms SelectorCreator.constructor) < 2 ->
     SelectorCreator.idData (lifetime ms SelectorCreator.constructor) = "") /\
  (SelectorCreator.line (lifetime ms SelectorCreator.constructor) < 3 ->
     SelectorCreator.classData (lifetime ms SelectorCreator.constructor) = []) /\
  (SelectorCreator.line (lifetime ms SelectorCreator.constructor) < 4 ->
     SelectorCreator.attrData (lifetime ms SelectorCreator.constructor) = []) /\
  (SelectorCreator.line (lifetime ms SelectorCreator.constructor) < 5 ->
     SelectorCreator.pseudoClassData (lifetime ms SelectorCreator.constructor) = []) /\
  (SelectorCreator.line (lifetime ms SelectorCreator.constructor) < 6 ->
     SelectorCreator.pseudoElementData (lifetime ms SelectorCreator.constructor) = []) /\
  (SelectorCreator.line (lifetime ms SelectorCreator.constructor) = 2 ->
     SelectorCreator.idData (lifetime ms SelectorCreator.constructor) <> "") /\
  (SelectorCreator.line (lifetime ms SelectorCreator.constructor) = 3 ->
     SelectorCreator.classData (lifetime ms SelectorCreator.constructor) <> []) /\
  (SelectorCreator.line (lifetime ms SelectorCreator.constructor) = 4 ->
     SelectorCreator.attrData (lifetime ms SelectorCreator.constructor) <> []) /\
  (SelectorCreator.line (lifetime ms SelectorCreator.constructor) = 5 ->
     SelectorCreator.pseudoClassData (lifetime ms SelectorCreator.constructor) <> []) /\
  (SelectorCreator.line (lifetime ms SelectorCreator.constructor) = 6 ->
     SelectorCreator.pseudoElementData (lifetime ms SelectorCreator.constructor) <> []).
Proof.
  pose proof (stage_invariant_lifetime ms _ stage_invariant_new) as Hi.
  unfold stage_invariant in Hi.
  destruct Hi as (Hb & H1 & H2 & H3 & H4 & H5 & H6 & N2 & N3 & N4 & N5 & N6 & _).
  repeat split; try assumption; apply Hb.
Qed.

(** Instance: after [id('x')] on a new instance [line] is below 3 and there
    is no class. *)
Lemma stage_is_highest_stored_rank_witness :
  SelectorCreator.classData
    (lifetime [Fragment (Id "x")] SelectorCreator.constructor) = [].
Proof.
  apply (stage_is_highest_stored_rank [Fragment (Id "x")]). vm_compute. reflexivity.
Defined.

(** X5.  Whatever methods are called on a new instance, it never holds more
    than one pseudo-element. *)
Theorem at_most_one_pseudoElement (ms : list method) :
  (length (SelectorCreator.pseudoElementData
             (lifetime ms SelectorCreator.constructor)) <= 1)%nat.
Proof.
  pose proof (stage_invariant_lifetime ms _ stage_invariant_new) as Hi.
  unfold stage_invariant in Hi. apply Hi.
Qed.

(** ** The facade entry points *)

Lemma entry_outcome (f : fragment) (σ : store) :
  entry f σ =
    (Normal (fresh (dom σ)),
     <[fresh (dom σ) := stored f SelectorCreator.constructor]> σ).
Proof.
  destruct f as [v|v|v|v|v|v]; unfold entry;
    [ unfold cssSelectorBuilder.element; change (SelectorCreator.element v) with (call (Element v))
    | unfold cssSelectorBuilder.id; change (SelectorCreator.id v) with (call (Id v))
    | unfold cssSelectorBuilder.class; change (SelectorCreator.class v) with (call (Class v))
    | unfold cssSelectorBuilder.attr; change (SelectorCreator.attr v) with (call (Attr v))
    | unfold cssSelectorBuilder.pseudoClass;
      change (SelectorCreator.pseudoClass v) with (call (PseudoClass v))
    | unfold cssSelectorBuilder.pseudoElement;
      change (SelectorCreator.pseudoElement v) with (call (PseudoElement v)) ];
    unfold new_SelectorCreator, invoke_this, bind;
    (rewrite (invoke_outcome _ _ SelectorCreator.constructor) by apply lookup_insert_eq);
    rewrite call_outcome; simpl; unfold ret; f_equal; apply insert_insert_eq.
Qed.

Lemma compound_of_first (f : fragment) :
  compound (stored f SelectorCreator.constructor) = decorate f.
Proof. destruct f; unfold compound, join; simpl; now rewrite ?append_nil_r. Qed.

Lemma lookup_kept (σ : store) (x : SelectorCreator.t) (r : ref) (o : SelectorCreator.t) :
  σ !! r = Some o -> <[fresh (dom σ) := x]> σ !! r = Some o.
Proof.
  intros Ho. rewrite lookup_insert_ne; [exact Ho|].
  intros E. symmetry in E. now apply (allocated_not_fresh σ r o).
Qed.

(** X6.  Each facade entry point returns, whatever the store holds: it
    hands out a reference that designated no instance before, leaves every
    existing instance as it was, and [stringify()] on the new instance
    returns the decorated value alone. *)
Theorem entry_makes_a_new_instance (f : fragment) (σ : store) :
  exists r σ1,
    entry f σ = (Normal r, σ1) /\
    σ !! r = None /\
    (forall r' o, σ !! r' = Some o -> σ1 !! r' = Some o) /\
    invoke r SelectorCreator.stringify σ1 = (Normal (decorate f), σ1).
Proof.
  eexists _, _. split; [apply entry_outcome|].
  split; [apply new_is_fresh|]. split.
  - intros r' o Ho. now apply lookup_kept.
  - erewrite invoke_stringify by apply lookup_insert_eq.
    now rewrite compound_of_first, stored_combinator, append_nil_r.
Qed.

(** X7.  Two chains started at the facade do not share state: the two
    references differ, and no sequence of method calls on the first
    instance changes the second one or what its [stringify()] returns. *)
Theorem entries_are_independent
    (σ σ2 : store) (f g : fragment) (a b : ref) (ms : list (ref * method)) :
  (a <- entry f ;; b <- entry g ;; ret (a, b)) σ = (Normal (a, b), σ2) ->
  Forall (fun rm => fst rm = a) ms ->
  a <> b /\
  lifetime_in ms σ2 !! b = σ2 !! b /\
  fst (invoke b SelectorCreator.stringify (lifetime_in ms σ2)) = Normal (decorate g).
Proof.
  unfold bind. rewrite !entry_outcome. unfold ret. intros [= Ea Eb E2] Hms.
  assert (Ha : <[fresh (dom σ) := stored f SelectorCreator.constructor]> σ !! a =
               Some (stored f SelectorCreator.constructor)).
  { subst a. apply lookup_insert_eq. }
  assert (Hab : a <> b).
  { subst b. exact (allocated_not_fresh _ a _ Ha). }
  assert (Hb : σ2 !! b = Some (stored g SelectorCreator.constructor)).
  { subst b σ2. apply lookup_insert_eq. }
  assert (Hl : lifetime_in ms σ2 !! b = σ2 !! b).
  { apply lifetime_in_other. eapply Forall_impl; [exact Hms|].
    intros [r m] Hr. simpl in Hr |- *. now subst r. }
  split; [exact Hab|]. split; [exact Hl|].
  erewrite invoke_stringify by (rewrite Hl; exact Hb).
  rewrite compound_of_first, stored_combinator. simpl. now rewrite append_nil_r.
Qed.

(** Instance: [element('a')] and [id('b')] in the empty store; a class is
    then added to the first. *)
Lemma entries_are_independent_witness :
  1%positive <> 2%positive /\
  lifetime_in [(1%positive, Fragment (Class "c"))]
    (snd ((a <- entry (Element "a") ;; b <- entry (Id "b") ;; ret (a, b)) ∅))
    !! 2%positive =
  snd ((a <- entry (Element "a") ;; b <- entry (Id "b") ;; ret (a, b)) ∅) !! 2%positive /\
  fst (invoke 2%positive SelectorCreator.stringify
         (lifetime_in [(1%positive, Fragment (Class "c"))]
            (snd ((a <- entry (Element "a") ;; b <- entry (Id "b") ;; ret (a, b)) ∅)))) =
    Normal "#b".
Proof.
  apply (entries_are_independent ∅ _ (Element "a") (Id "b")).
  - vm_compute. reflexivity.
  - constructor; [reflexivity | constructor].
Defined.

(** ** More on [combine] *)

(** [combine] on two instances, by what matters to a caller: the new
    instance renders as the two operands around the combinator, and every
    instance there was is still there, unchanged. *)
Lemma combine_text (σ : store) (a b : ref) (c : string) (oa ob : SelectorCreator.t) :
  σ !! a = Some oa -> σ !! b = Some ob ->
  exists s σ1 os,
    cssSelectorBuilder.combine a c b σ = (Normal s, σ1) /\
    σ !! s = None /\
    σ1 !! s = Some os /\
    compound os +:+ SelectorCreator.combinator os =
      (compound oa +:+ SelectorCreator.combinator oa) +:+ " " +:+ c +:+ " " +:+
      (compound ob +:+ SelectorCreator.combinator ob) /\
    (forall r o, σ !! r = Some o -> σ1 !! r = Some o).
Proof.
  intros Ha Hb. eexists _, _, _.
  split; [exact (combine_outcome σ a b c oa ob Ha Hb)|].
  split; [apply new_is_fresh|]. split; [apply lookup_insert_eq|]. split.
  - rewrite compound_of_element, stored_combinator. simpl. apply append_nil_r.
  - intros r o Ho. now apply lookup_kept.
Qed.

(** X8.  [combine] on two instances always returns; the reference it
    returns designated no instance before, and the operands and every other
    instance of the store are left as they were. *)
Theorem combine_leaves_instances_alone
    (σ : store) (a b : ref) (c : string) (oa ob : SelectorCreator.t) :
  σ !! a = Some oa -> σ !! b = Some ob ->
  exists s σ1,
    cssSelectorBuilder.combine a c b σ = (Normal s, σ1) /\
    σ !! s = None /\
    (forall r o, σ !! r = Some o -> σ1 !! r = Some o).
Proof.
  intros Ha Hb.
  destruct (combine_text σ a b c oa ob Ha Hb) as (s & σ1 & os & Hc & Hs & _ & _ & Hk).
  now exists s, σ1.
Qed.

(** Instance: the two example instances, combined with ['>']. *)
Lemma combine_leaves_instances_alone_witness :
  exists s σ1,
    cssSelectorBuilder.combine 1%positive ">" 2%positive example_store = (Normal s, σ1) /\
    example_store !! s = None /\
    (forall r o, example_store !! r = Some o -> σ1 !! r = Some o).
Proof.
  exact (combine_leaves_instances_alone example_store 1%positive 2%positive ">"
           _ _ eq_refl eq_refl).
Defined.

(** X9.  Combinations nest, and the string does not tell how:
    [combine(a, c1, combine(b, c2, d))] and
    [combine(combine(a, c1, b), c2, d)] both render as
    [sa + " " + c1 + " " + sb + " " + c2 + " " + sd]. *)
Theorem combine_nests (σ : store) (a b d : ref) (c1 c2 sa sb sd : string) :
  fst (invoke a SelectorCreator.stringify σ) = Normal sa ->
  fst (invoke b SelectorCreator.stringify σ) = Normal sb ->
  fst (invoke d SelectorCreator.stringify σ) = Normal sd ->
  fst ((x <- cssSelectorBuilder.combine b c2 d ;;
        y <- cssSelectorBuilder.combine a c1 x ;;
        invoke y SelectorCreator.stringify) σ) =
    Normal (sa +:+ " " +:+ c1 +:+ " " +:+ sb +:+ " " +:+ c2 +:+ " " +:+ sd) /\
  fst ((x <- cssSelectorBuilder.combine a c1 b ;;
        y <- cssSelectorBuilder.combine x c2 d ;;
        invoke y SelectorCreator.stringify) σ) =
    Normal (sa +:+ " " +:+ c1 +:+ " " +:+ sb +:+ " " +:+ c2 +:+ " " +:+ sd).
Proof.
  intros Ha Hb Hd.
  apply invoke_stringify_returns in Ha as (oa & Ha & ->).
  apply invoke_stringify_returns in Hb as (ob & Hb & ->).
  apply invoke_stringify_returns in Hd as (od & Hd & ->).
  split.
  - destruct (combine_text σ b d c2 ob od Hb Hd) as (x & σ1 & ox & Hc & _ & Hx & Hxt & Hk).
    destruct (combine_text σ1 a x c1 oa ox (Hk a oa Ha) Hx)
      as (y & σ2 & oy & Hc' & _ & Hy & Hyt & _).
    unfold bind. rewrite Hc, Hc'.
    rewrite (invoke_stringify σ2 y oy Hy). simpl.
    now rewrite Hyt, Hxt.
  - destruct (combine_text σ a b c1 oa ob Ha Hb) as (x & σ1 & ox & Hc & _ & Hx & Hxt & Hk).
    destruct (combine_text σ1 x d c2 ox od Hx (Hk d od Hd))
      as (y & σ2 & oy & Hc' & _ & Hy & Hyt & _).
    unfold bind. rewrite Hc, Hc'.
    rewrite (invoke_stringify σ2 y oy Hy). simpl.
    rewrite Hyt, Hxt. now rewrite !append_assoc.
Qed.

(** Instance: [div#main], [table] and [div#main] again. *)
Lemma combine_nests_witness :
  fst ((x <- cssSelectorBuilder.combine 2%positive "~" 1%positive ;;
        y <- cssSelectorBuilder.combine 1%positive "+" x ;;
        invoke y SelectorCreator.stringify) example_store) =
    Normal "div#main + table ~ div#main" /\
  fst ((x <- cssSelectorBuilder.combine 1%positive "+" 2%positive ;;
        y <- cssSelectorBuilder.combine x "~" 1%positive ;;
        invoke y SelectorCreator.stringify) example_store) =
    Normal "div#main + table ~ div#main".
Proof.
  exact (combine_nests example_store 1%positive 2%positive 1%positive "+" "~"
           "div#main" "table" "div#main" eq_refl eq_refl eq_refl).
Defined.

(** ** [setCombine] and the fragment methods *)

Lemma call_after_setCombine (f : fragment) (c s : string) (o : SelectorCreator.t) :
  call f (SelectorCreator.set_selector s (SelectorCreator.set_combinator c o)) =
    (fst (call f o),
     SelectorCreator.set_selector s (SelectorCreator.set_combinator c (snd (call f o)))).
Proof.
  rewrite !call_outcome.
  replace (populated f (SelectorCreator.set_selector s (SelectorCreator.set_combinator c o)))
    with (populated f o) by (now destruct f).
  simpl SelectorCreator.line.
  destruct (rank f <? SelectorCreator.line o); [reflexivity|].
  destruct (populated f o); [reflexivity|]. simpl. f_equal. now destruct f.
Qed.

Lemma chain_after_setCombine (fs : list fragment) (c s : string) (o : SelectorCreator.t) :
  chain fs (SelectorCreator.set_selector s (SelectorCreator.set_combinator c o)) =
    (fst (chain fs o),
     SelectorCreator.set_selector s (SelectorCreator.set_combinator c (snd (chain fs o)))).
Proof.
  revert o. induction fs as [|f fs IH]; intros o; [reflexivity|].
  rewrite !chain_cons, call_after_setCombine.
  destruct (call f o) as [[[]|e] o1]; simpl; [apply IH | reflexivity].
Qed.

(** X10.  [setCombine] may come anywhere: called before a chain of
    fragment calls or after it, the chain completes the same way, and when
    it returns the instance ends up the same, so [stringify()] returns the
    same string. *)
Theorem setCombine_commutes_with_chain
    (fs : list fragment) (c s : string) (o : SelectorCreator.t) :
  fst ((SelectorCreator.setCombine c s ;; chain fs) o) =
    fst ((chain fs ;; SelectorCreator.setCombine c s) o) /\
  (fst (chain fs o) = Normal tt ->
   (SelectorCreator.setCombine c s ;; chain fs ;; SelectorCreator.stringify) o =
   (chain fs ;; SelectorCreator.setCombine c s ;; SelectorCreator.stringify) o).
Proof.
  unfold bind. rewrite !setCombine_outcome, chain_after_setCombine.
  destruct (chain fs o) as [[[]|e] o1]; simpl.
  - split; reflexivity.
  - split; [reflexivity | discriminate].
Qed.

(** Instance: [setCombine('>', 'p')] before or after [id('x').class('c')]. *)
Lemma setCombine_commutes_with_chain_witness :
  (SelectorCreator.setCombine ">" "p" ;; chain [Id "x"; Class "c"] ;;
   SelectorCreator.stringify) SelectorCreator.constructor =
  (chain [Id "x"; Class "c"] ;; SelectorCreator.setCombine ">" "p" ;;
   SelectorCreator.stringify) SelectorCreator.constructor.
Proof.
  exact (proj2 (setCombine_commutes_with_chain [Id "x"; Class "c"] ">" "p"
                  SelectorCreator.constructor) eq_refl).
Defined.

(** ** No way back *)

(** X11.  A fragment method that has thrown the ordering error on an
    instance throws it on that instance ever after, whatever is called in
    between. *)
Theorem order_error_is_final (f : fragment) (ms : list method) (o : SelectorCreator.t) :
  fst (call f o) = Throw OrderError ->
  call f (lifetime ms o) = (Throw OrderError, lifetime ms o).
Proof.
  rewrite !call_outcome.
  destruct (rank f <? SelectorCreator.line o) eqn:Hlt.
  - intros _. apply Z.ltb_lt in Hlt.
    pose proof (lifetime_line ms o) as Hle.
    replace (rank f <? SelectorCreator.line (lifetime ms o)) with true
      by (symmetry; apply Z.ltb_lt; lia).
    reflexivity.
  - destruct (populated f o); simpl; [|discriminate].
    intros H. exfalso. apply errors_differ. congruence.
Qed.

(** Instance: [element] on [element('div').id('main')], before and after a
    class is added. *)
Lemma order_error_is_final_witness :
  call (Element "p")
    (lifetime [Fragment (Class "c")]
       (stored (Id "main") (stored (Element "div") SelectorCreator.constructor))) =
    (Throw OrderError,
     lifetime [Fragment (Class "c")]
       (stored (Id "main") (stored (Element "div") SelectorCreator.constructor))).
Proof.
  exact (order_error_is_final (Element "p") [Fragment (Class "c")]
           (stored (Id "main") (stored (Element "div") SelectorCreator.constructor))
           eq_refl).
Defined.

(** ** Fields only grow *)

Lemma extends_arrays_refl (o : SelectorCreator.t) : extends_arrays o o.
Proof. repeat split; exists []; now rewrite app_nil_r. Qed.

Lemma extends_arrays_trans (o1 o2 o3 : SelectorCreator.t) :
  extends_arrays o1 o2 -> extends_arrays o2 o3 -> extends_arrays o1 o3.
Proof.
  intros ([l1 H1] & [l2 H2] & [l3 H3] & [l4 H4])
         ([k1 K1] & [k2 K2] & [k3 K3] & [k4 K4]).
  repeat split;
    [exists (l1 ++ k1) | exists (l2 ++ k2) | exists (l3 ++ k3) | exists (l4 ++ k4)];
    rewrite app_assoc; congruence.
Qed.

Lemma extends_arrays_stored (f : fragment) (o : SelectorCreator.t) :
  extends_arrays o (stored f o).
Proof.
  destruct f; repeat split; simpl;
    first [ now (exists []; rewrite app_nil_r) | now eexists ].
Qed.

Lemma extends_arrays_perform (m : method) (o : SelectorCreator.t) :
  extends_arrays o (snd (perform m o)).
Proof.
  rewrite perform_outcome. destruct m as [f| |]; simpl.
  - destruct (call_state f o) as [-> | [_ ->]];
      [apply extends_arrays_refl | apply extends_arrays_stored].
  - repeat split; exists []; simpl; now rewrite app_nil_r.
  - apply extends_arrays_refl.
Qed.

(** X12.  The class, attribute, pseudo-class and pseudo-element arrays are
    append-only: whatever methods are called on an instance, each array
    afterwards starts with what it held before, in the same order. *)
Theorem arrays_are_append_only (ms : list method) (o : SelectorCreator.t) :
  (exists l, SelectorCreator.classData (lifetime ms o) = SelectorCreator.classData o ++ l) /\
  (exists l, SelectorCreator.attrData (lifetime ms o) = SelectorCreator.attrData o ++ l) /\
  (exists l, SelectorCreator.pseudoClassData (lifetime ms o) =
             SelectorCreator.pseudoClassData o ++ l) /\
  (exists l, SelectorCreator.pseudoElementData (lifetime ms o) =
             SelectorCreator.pseudoElementData o ++ l).
Proof.
  change (extends_arrays o (lifetime ms o)).
  revert o. induction ms as [|m ms IH]; intros o; simpl.
  - apply extends_arrays_refl.
  - eapply extends_arrays_trans; [apply (extends_arrays_perform m) | apply IH].
Qed.

Lemma keeps_singletons_perform (m : method) (o : SelectorCreator.t) :
  keeps_singletons o (snd (perform m o)) /\
  (truthy (SelectorCreator.elementData o) = true ->
   truthy (SelectorCreator.elementData (snd (perform m o))) = true) /\
  (truthy (SelectorCreator.idData o) = true ->
   truthy (SelectorCreator.idData (snd (perform m o))) = true) /\
  (SelectorCreator.pseudoElementData o <> [] ->
   SelectorCreator.pseudoElementData (snd (perform m o)) <> []).
Proof.
  assert (Hsame : forall o' : SelectorCreator.t,
            SelectorCreator.elementData o' = SelectorCreator.elementData o ->
            SelectorCreator.idData o' = SelectorCreator.idData o ->
            SelectorCreator.pseudoElementData o' = SelectorCreator.pseudoElementData o ->
            keeps_singletons o o' /\
            (truthy (SelectorCreator.elementData o) = true ->
             truthy (SelectorCreator.elementData o') = true) /\
            (truthy (SelectorCreator.idData o) = true ->
             truthy (SelectorCreator.idData o') = true) /\
            (SelectorCreator.pseudoElementData o <> [] ->
             SelectorCreator.pseudoElementData o' <> [])).
  { intros o' E1 E2 E3. unfold keeps_singletons. rewrite E1, E2, E3. tauto. }
  rewrite perform_outcome. destruct m as [f|c s|].
  2: { exact (Hsame (SelectorCreator.set_selector s (SelectorCreator.set_combinator c o))
                eq_refl eq_refl eq_refl). }
  2: { exact (Hsame o eq_refl eq_refl eq_refl). }
  destruct (call_state f o) as [-> | [Hc ->]];
    [exact (Hsame o eq_refl eq_refl eq_refl)|].
  apply call_returns in Hc as (_ & Hp & _).
  destruct f as [v|v|v|v|v|v]; simpl in Hp.
  - unfold keeps_singletons. simpl. rewrite Hp. repeat split; auto; discriminate.
  - unfold keeps_singletons. simpl. rewrite Hp. repeat split; auto; discriminate.
  - exact (Hsame (stored (Class v) o) eq_refl eq_refl eq_refl).
  - exact (Hsame (stored (Attr v) o) eq_refl eq_refl eq_refl).
  - exact (Hsame (stored (PseudoClass v) o) eq_refl eq_refl eq_refl).
  - assert (He : SelectorCreator.pseudoElementData o = []).
    { destruct (SelectorCreator.pseudoElementData o);
        [reflexivity | simpl in Hp; discriminate Hp]. }
    unfold keeps_singletons. simpl. rewrite He. repeat split; auto; congruence.
Qed.

(** X13.  The element, the id and the pseudo-element are write-once: once
    the field is occupied, no method call on the instance, returning or
    throwing, changes its content. *)
Theorem singletons_are_write_once (ms : list method) (o : SelectorCreator.t) :
  (truthy (SelectorCreator.elementData o) = true ->
   SelectorCreator.elementData (lifetime ms o) = SelectorCreator.elementData o) /\
  (truthy (SelectorCreator.idData o) = true ->
   SelectorCreator.idData (lifetime ms o) = SelectorCreator.idData o) /\
  (SelectorCreator.pseudoElementData o <> [] ->
   SelectorCreator.pseudoElementData (lifetime ms o) = SelectorCreator.pseudoElementData o).
Proof.
  change (keeps_singletons o (lifetime ms o)).
  revert o. induction ms as [|m ms IH]; intros o; simpl.
  - unfold keeps_singletons. tauto.
  - destruct (keeps_singletons_perform m o) as ((K1 & K2 & K3) & T1 & T2 & T3).
    destruct (IH (snd (perform m o))) as (I1 & I2 & I3).
    unfold keeps_singletons. repeat split; intros H.
    + rewrite I1 by auto. auto.
    + rewrite I2 by auto. auto.
    + rewrite I3 by auto. auto.
Qed.

(** Instance: the id of [element('div').id('main')] after an [id('other')]
    call that throws and a [class('c')] call that returns. *)
Lemma singletons_are_write_once_witness :
  SelectorCreator.idData
    (lifetime [Fragment (Id "other"); Fragment (Class "c")]
       (stored (Id "main") (stored (Element "div") SelectorCreator.constructor))) =
    "#main".
Proof.
  exact (proj1 (proj2 (singletons_are_write_once
                         [Fragment (Id "other"); Fragment (Class "c")]
                         (stored (Id "main")
                            (stored (Element "div") SelectorCreator.constructor))))
           eq_refl).
Defined.
